(** * badgematic: the Tailwind / daisyUI configuration, verified

    The repository's only source file, [tailwind.config.js], is one
    default-exported object literal.  We transcribe that literal once,
    against an interface of the four literal forms it uses, and read it
    in two ways: as plain data (a tree of strings, arrays and objects)
    and as the allocation the JavaScript runtime performs when it
    evaluates the literal, the module system of the host being a
    parameter.  The properties of the palettes are stated on
    the first reading; the second one is what "loading the file twice"
    means.  A third reading keeps the literal as syntax, to say what is
    written apart from what is built. *)

From Stdlib Require Import Ascii.
From stdpp Require Import base option list strings gmap.

Set Warnings "-register-all".

(** ** The literal forms of the source *)

(** String literals, array literals, object literals and the call
    [require("...")]: nothing else occurs in the file. *)
Class Literal (T : Type) := {
  str : string → T;
  arr : list T → T;
  obj : list (string * T) → T;
  require : string → T;
}.

(** ** Plain data *)

Inductive value :=
| VStr (s : string)
| VArr (items : list value)
| VObj (props : list (string * value))
| VModule (specifier : string).

(** Defining a property on an object: a key already present keeps its
    place and takes the new value, a new key goes last.  This is what
    JavaScript does with the keys called ordinary below: those that
    are neither decimal numerals, which it lists before all others, nor
    [__proto__], which in a literal sets the prototype and defines no
    property.  Every key of this file is ordinary. *)
Fixpoint put {A} (k : string) (x : A) (ps : list (string * A)) : list (string * A) :=
  match ps with
  | [] => [(k, x)]
  | (k', x') :: ps' =>
      if String.eqb k k' then (k, x) :: ps' else (k', x') :: put k x ps'
  end.

(** An object literal defines its properties from left to right. *)
Definition define {A} (fields : list (string * A)) : list (string * A) :=
  fold_left (λ ps f, put f.1 f.2 ps) fields [].

#[global] Instance value_literal : Literal value := {
  str := VStr;
  arr := VArr;
  obj fields := VObj (define fields);
  require := VModule;
}.

Fixpoint assoc {A} (k : string) (ps : list (string * A)) : option A :=
  match ps with
  | [] => None
  | (k', x) :: ps' => if String.eqb k k' then Some x else assoc k ps'
  end.

Definition props_of (v : value) : list (string * value) :=
  match v with VObj ps => ps | _ => [] end.

Definition items_of (v : value) : list value :=
  match v with VArr xs => xs | _ => [] end.

(** The own property [k] of [v]; [None] when [v] has no own property
    [k].  For the names the consumers read ([content], [theme],
    [extend], [plugins], [daisyui], [themes] and the role names), none
    of which [Object.prototype] defines, this is the property access
    [v.k], with [None] for [undefined]. *)
Definition field (k : string) (v : value) : option value :=
  assoc k (props_of v).

(** ** tailwind.config.js *)

Definition tailwind_config {T} `{Literal T} : T :=
  obj [
    ("content", arr [
      str "./app/templates/**/*.html";
      str "./app/static/**/*.js"
    ]);
    ("theme", obj [ ("extend", obj []) ]);
    ("plugins", arr [ require "daisyui" ]);
    ("daisyui", obj [
      ("themes", arr [
        obj [
          ("brand-light", obj [
            ("primary",   str "#0E2A30");
            ("secondary", str "#AFB3A8");
            ("accent",    str "#FF542E");
            ("neutral",   str "#020F13");
            ("base-100",  str "#F9F9F9");
            ("base-200",  str "#D6DFE0");
            ("base-300",  str "#AFB3A8");
            ("primary-content",   str "#F9F9F9");
            ("secondary-content", str "#020F13");
            ("accent-content",    str "#020F13");
            ("neutral-content",   str "#F9F9F9");
            ("base-content",      str "#020F13");
            ("info",    str "#3A8FB7");
            ("success", str "#27856A");
            ("warning", str "#F59E0B");
            ("error",   str "#DC2626")
          ])
        ];
        obj [
          ("brand-teal-surface", obj [
            ("primary",   str "#0E2A30");
            ("secondary", str "#AFB3A8");
            ("accent",    str "#FF542E");
            ("neutral",   str "#020F13");
            ("base-100",  str "#0E2A30");
            ("base-200",  str "#0B2125");
            ("base-300",  str "#08191C");
            ("primary-content",   str "#F9F9F9");
            ("secondary-content", str "#020F13");
            ("accent-content",    str "#020F13");
            ("neutral-content",   str "#F9F9F9");
            ("base-content",      str "#F9F9F9");
            ("info",    str "#69B7D1");
            ("success", str "#35A387");
            ("warning", str "#FDBA74");
            ("error",   str "#F87171")
          ])
        ]
      ])
    ])
  ].

(** The exported value, as data. *)
Definition config : value := tailwind_config.

(** ** The configuration as its consumers read it *)

(** [content]: the glob patterns handed to the scanner. *)
Definition contentGlobs (c : value) : list value :=
  from_option items_of [] (field "content" c).

(** [theme.extend]. *)
Definition themeExtensions (c : value) : option value :=
  field "theme" c ≫= field "extend".

(** [plugins]. *)
Definition pluginList (c : value) : list value :=
  from_option items_of [] (field "plugins" c).

Record ThemePalette := {
  name : string;
  colorRoles : gmap string value;
}.

(** One entry of [daisyui.themes] is an object whose keys are theme
    names and whose values are the palettes. *)
Definition palettes_of_entry (entry : value) : list ThemePalette :=
  map (λ p, {| name := p.1; colorRoles := list_to_map (props_of p.2) |})
      (props_of entry).

(** [daisyui.themes], entry by entry. *)
Definition themeDefinitions (c : value) : list ThemePalette :=
  from_option (λ themes, flat_map palettes_of_entry (items_of themes)) []
    (field "daisyui" c ≫= field "themes").

Definition palette (c : value) (n : string) : option ThemePalette :=
  List.find (λ p, String.eqb (name p) n) (themeDefinitions c).

(** [colorRoles.r] of the palette named [n]. *)
Definition role_of (c : value) (n r : string) : option value :=
  palette c n ≫= λ p, colorRoles p !! r.

(** ** Role names *)

(** The counterpart of a role: the colour of what is drawn on it. *)
Definition content_counterpart (r : string) : string := r +:+ "-content".

Definition status_roles : list string :=
  ["info"; "success"; "warning"; "error"].

(** The roles the palettes of the source are written with: the three
    surface shades share the one counterpart [base-content]. *)
Definition brand_roles : list string :=
  ["primary"; "secondary"; "accent"; "neutral"].

Definition surface_roles : list string :=
  ["base-100"; "base-200"; "base-300"].

Definition palette_roles : list string :=
  brand_roles ++ surface_roles
  ++ map content_counterpart brand_roles ++ ["base-content"]
  ++ status_roles.

(** The seven roles that come with a [-content] counterpart. *)
Definition paired_roles : list string := brand_roles ++ surface_roles.

(** The [-content] counterpart of a paired role: a brand role [r] has
    [r-content], and the three surface shades have the one
    [base-content] between them. *)
Definition counterpart_of (r : string) : string :=
  if bool_decide (r ∈ surface_roles) then "base-content"
  else content_counterpart r.

(** The required role set: the seven paired roles, the counterpart of
    each, and the four status roles. *)
Definition required_roles : list string :=
  paired_roles ++ map counterpart_of paired_roles ++ status_roles.

(** The roles that do not depend on the surface: the brand colours and
    their counterparts. *)
Definition shared_roles : list string :=
  brand_roles ++ map content_counterpart brand_roles.

(** A palette defines every role of [roles]. *)
Definition defines_all (roles : list string) (p : ThemePalette) : Prop :=
  ∀ r, r ∈ roles → is_Some (colorRoles p !! r).

(** ** Regular expressions, as far as the colour syntax needs them *)

Inductive regex :=
| Void
| Eps
| Chr (c : ascii)
| Class (ranges : list (ascii * ascii))
| Cat (r1 r2 : regex)
| Alt (r1 r2 : regex).

(** [r{n}] *)
Fixpoint times (n : nat) (r : regex) : regex :=
  match n with
  | 0 => Eps
  | S n' => Cat r (times n' r)
  end.

Definition in_range (c : ascii) (rg : ascii * ascii) : bool :=
  Nat.leb (nat_of_ascii rg.1) (nat_of_ascii c)
  && Nat.leb (nat_of_ascii c) (nat_of_ascii rg.2).

Definition in_class (c : ascii) (ranges : list (ascii * ascii)) : bool :=
  existsb (in_range c) ranges.

Fixpoint nullable (r : regex) : bool :=
  match r with
  | Eps => true
  | Cat r1 r2 => nullable r1 && nullable r2
  | Alt r1 r2 => nullable r1 || nullable r2
  | _ => false
  end.

(** The derivative of [r] by the character [c]. *)
Fixpoint deriv (c : ascii) (r : regex) : regex :=
  match r with
  | Void | Eps => Void
  | Chr c' => if Ascii.eqb c c' then Eps else Void
  | Class ranges => if in_class c ranges then Eps else Void
  | Cat r1 r2 =>
      if nullable r1 then Alt (Cat (deriv c r1) r2) (deriv c r2)
      else Cat (deriv c r1) r2
  | Alt r1 r2 => Alt (deriv c r1) (deriv c r2)
  end.

(** Whole-string match, [^r$] without flags.  The strings of the
    source are ASCII, so a character here is a code unit there. *)
Fixpoint matches (r : regex) (s : string) : bool :=
  match s with
  | EmptyString => nullable r
  | String c s' => matches (deriv c r) s'
  end.

(** The strings of a regular expression. *)
Inductive lang : regex → string → Prop :=
| lang_eps : lang Eps ""
| lang_chr c : lang (Chr c) (String c "")
| lang_class c ranges : in_class c ranges = true → lang (Class ranges) (String c "")
| lang_cat r1 r2 s1 s2 : lang r1 s1 → lang r2 s2 → lang (Cat r1 r2) (s1 +:+ s2)
| lang_alt_l r1 r2 s : lang r1 s → lang (Alt r1 r2) s
| lang_alt_r r1 r2 s : lang r2 s → lang (Alt r1 r2) s.

(** [[0-9A-Fa-f]] *)
Definition hex_digit : regex :=
  Class [("0", "9"); ("A", "F"); ("a", "f")]%char.

(** [^#[0-9A-Fa-f]{6}$] *)
Definition hex_color : regex := Cat (Chr "#"%char) (times 6 hex_digit).

(** A colour value: a string of the syntax [#RRGGBB]. *)
Definition is_hex_color (v : value) : bool :=
  match v with
  | VStr s => matches hex_color s
  | _ => false
  end.

(** ** Evaluating the literal *)

(** The module system belongs to the host (Node, or the loader of the
    build tool), not to this repository.  Only its interface is fixed
    here: [require] is given a specifier and the state of the module
    system (the cache, and whatever the code of the modules can reach);
    it throws, or it returns an export and leaves a new state. *)
Record host := {
  export : Type;
  modules : Type;
  host_require : string → modules → option (export * modules);
}.

Section evaluation.
Context (H : host).

(** What a variable or a property holds: a primitive string, the
    export of a module, or a reference to an array or object. *)
Inductive hval :=
| HStr (s : string)
| HExport (e : export H)
| HRef (l : nat).

Inductive cell :=
| CArr (items : list hval)
| CObj (props : list (string * hval)).

(** The state of the module system, and the cells allocated so far; a
    reference is an index into the cells. *)
Record world := World {
  cache : modules H;
  cells : list cell;
}.

(** An evaluation changes the world, or throws. *)
Definition Eval (A : Type) : Type := world → option (A * world).

#[global] Instance Eval_ret : MRet Eval := λ A x w, Some (x, w).
#[global] Instance Eval_bind : MBind Eval :=
  λ A B f m w, match m w with Some (x, w') => f x w' | None => None end.

Definition alloc (c : cell) : Eval hval :=
  λ w, Some (HRef (length (cells w)), World (cache w) (cells w ++ [c])).

(** The call [require(s)], answered by the host. *)
Definition call_require (s : string) : Eval hval :=
  λ w, match host_require H s (cache w) with
       | Some (e, m) => Some (HExport e, World m (cells w))
       | None => None
       end.

(** Elements and property values are evaluated from left to right. *)
Fixpoint eval_items (ms : list (Eval hval)) : Eval (list hval) :=
  match ms with
  | [] => mret []
  | m :: ms' => h ← m; hs ← eval_items ms'; mret (h :: hs)
  end.

Fixpoint eval_fields (fs : list (string * Eval hval)) : Eval (list (string * hval)) :=
  match fs with
  | [] => mret []
  | (k, m) :: fs' => h ← m; ps ← eval_fields fs'; mret ((k, h) :: ps)
  end.

#[global] Instance eval_literal : Literal (Eval hval) := {
  str s := mret (HStr s);
  arr ms := hs ← eval_items ms; alloc (CArr hs);
  obj fs := ps ← eval_fields fs; alloc (CObj (define ps));
  require := call_require;
}.

(** Evaluating the module body once. *)
Definition load : Eval hval := tailwind_config.

(** Data with the exports of the host in place. *)
Inductive data :=
| DStr (s : string)
| DArr (items : list data)
| DObj (props : list (string * data))
| DExport (e : export H).

(** The data a literal stands for when [require s] gives [f s]. *)
Definition data_literal (f : string → export H) : Literal data := {|
  str := DStr;
  arr := DArr;
  obj fields := DObj (define fields);
  require s := DExport (f s);
|}.

(** The exported configuration with [e] for the export of the plugin. *)
Definition config_with (e : export H) : data :=
  @tailwind_config data (data_literal (λ _, e)).

(** The plain data behind it, each export named by [nm]. *)
Fixpoint to_value (nm : export H → string) (t : data) : value :=
  match t with
  | DStr s => VStr s
  | DArr ts => VArr (map (to_value nm) ts)
  | DObj ps => VObj (map (λ p, (p.1, to_value nm p.2)) ps)
  | DExport e => VModule (nm e)
  end.

(** The data a value stands for, followed through at most [n]
    references. *)
Fixpoint snapshot (n : nat) (σ : list cell) (h : hval) : option data :=
  match h with
  | HStr s => Some (DStr s)
  | HExport e => Some (DExport e)
  | HRef l =>
      match n with
      | 0 => None
      | S n' =>
          match σ !! l with
          | Some (CArr hs) => DArr <$> mapM (snapshot n' σ) hs
          | Some (CObj ps) =>
              DObj <$> mapM (λ p, pair p.1 <$> snapshot n' σ p.2) ps
          | None => None
          end
      end
  end.

(** Nesting depth of arrays and objects. *)
Fixpoint depth (t : data) : nat :=
  match t with
  | DArr ts => S (foldr (λ x d, depth x `max` d) 0 ts)
  | DObj ps => S (foldr (λ p d, depth p.2 `max` d) 0 ps)
  | _ => 0
  end.

(** [h] stands for the data [t] in the cells [σ]. *)
Definition reads (σ : list cell) (h : hval) (t : data) : Prop :=
  ∀ n, snapshot (depth t + n) σ h = Some t.

(** Two values hold structurally identical data: they stand for one
    and the same tree, equal in every field. *)
Definition same_data (σ : list cell) (h1 h2 : hval) : Prop :=
  ∃ t, reads σ h1 t ∧ reads σ h2 t.

(** [m] builds the data [t] and takes the module system from [c] to
    [c']: whatever the cells are, it returns a value that stands for
    [t] and only appends cells. *)
Definition builds (m : Eval hval) (t : data) (c c' : modules H) : Prop :=
  ∀ σ, ∃ h τ, m (World c σ) = Some (h, World c' (σ ++ τ)) ∧ reads (σ ++ τ) h t.

Inductive builds_items :
    list (Eval hval) → list data → modules H → modules H → Prop :=
| builds_items_nil c : builds_items [] [] c c
| builds_items_cons m t ms ts c c1 c2 :
    builds m t c c1 → builds_items ms ts c1 c2 →
    builds_items (m :: ms) (t :: ts) c c2.

Inductive builds_fields :
    list (string * Eval hval) → list (string * data) →
    modules H → modules H → Prop :=
| builds_fields_nil c : builds_fields [] [] c c
| builds_fields_cons k m t fs ts c c1 c2 :
    builds m t c c1 → builds_fields fs ts c1 c2 →
    builds_fields ((k, m) :: fs) ((k, t) :: ts) c c2.

(** Loading twice from [w], as a pure and idempotent operation would
    go: both evaluations return, their results hold structurally
    identical data, the module system is as it was, and the cells that
    were there are still there, unchanged. *)
Definition loads_purely (w : world) : Prop :=
  ∃ r1 w1 r2 w2,
    load w = Some (r1, w1) ∧ load w1 = Some (r2, w2)
    ∧ same_data (cells w2) r1 r2
    ∧ cache w1 = cache w ∧ cache w2 = cache w
    ∧ cells w `prefix_of` cells w1 ∧ cells w1 `prefix_of` cells w2.

End evaluation.

Arguments HStr {H} s.
Arguments HExport {H} e.
Arguments HRef {H} l.
Arguments CArr {H} items.
Arguments CObj {H} props.
Arguments World {H} cache cells.
Arguments cache {H} w.
Arguments cells {H} w.
Arguments alloc {H} c.
Arguments eval_items {H} ms.
Arguments eval_fields {H} fs.
Arguments DStr {H} s.
Arguments DArr {H} items.
Arguments DObj {H} props.
Arguments DExport {H} e.
Arguments config_with {H} e.
Arguments to_value {H} nm t.
Arguments snapshot {H} n σ h.
Arguments depth {H} t.
Arguments reads {H} σ h t.
Arguments same_data {H} σ h1 h2.
Arguments builds {H} m t c c'.
Arguments builds_items {H}.
Arguments builds_fields {H}.
Arguments loads_purely {H} w.

(** A host in the manner of Node: a module exports one object, here
    told by its specifier, and the first [require] of a module enters
    it in the cache. *)
Definition node : host := {|
  export := string;
  modules := list string;
  host_require s m := Some (s, if bool_decide (s ∈ m) then m else s :: m);
|}.

(** Node at its start: no module loaded, nothing allocated. *)
Definition node_start : world node := World (H := node) [] [].

(** A host that gives the module no [require], as Node does for a file
    it loads as an ES module: the call throws. *)
Definition bare : host := {|
  export := Empty_set;
  modules := unit;
  host_require _ _ := None;
|}.

(** Two property lists with the same keys, the values related by [P]. *)
Definition fields_rel {A B} (P : A → B → Prop) :
    list (string * A) → list (string * B) → Prop :=
  Forall2 (λ p q, p.1 = q.1 ∧ P p.2 q.2).

(** ** The literal as written *)

(** The four forms kept as syntax: what the file says before any
    object is built from it. *)
Inductive lit :=
| LStr (s : string)
| LArr (items : list lit)
| LObj (fields : list (string * lit))
| LRequire (specifier : string).

#[global] Instance lit_literal : Literal lit := {
  str := LStr;
  arr := LArr;
  obj := LObj;
  require := LRequire;
}.

(** A piece of syntax read in any of the ways a literal can be read. *)
Fixpoint denote {T} `{Literal T} (e : lit) : T :=
  match e with
  | LStr s => str s
  | LArr xs => arr (map denote xs)
  | LObj fs => obj (map (λ f, (f.1, denote f.2)) fs)
  | LRequire s => require s
  end.

(** The text of [tailwind.config.js]. *)
Definition source_text : lit := tailwind_config.

(** The tree with every object holding its properties exactly as they
    are written, in the order they are written. *)
Fixpoint plain (e : lit) : value :=
  match e with
  | LStr s => VStr s
  | LArr xs => VArr (map plain xs)
  | LObj fs => VObj (map (λ f, (f.1, plain f.2)) fs)
  | LRequire s => VModule s
  end.

(** No object of the literal names a property twice. *)
Fixpoint keys_unique (e : lit) : bool :=
  match e with
  | LArr xs => forallb keys_unique xs
  | LObj fs => bool_decide (NoDup fs.*1) && forallb (λ f, keys_unique f.2) fs
  | _ => true
  end.

(** A key made of decimal digits only. *)
Definition numeral (k : string) : bool :=
  negb (String.eqb k "")
  && forallb (λ c, in_range c ("0", "9")%char) (String.list_ascii_of_string k).

(** A key that an object literal defines as a property of its own, in
    the place where it is written. *)
Definition ordinary_key (k : string) : bool :=
  negb (String.eqb k "__proto__") && negb (numeral k).

(** Every key of the literal is ordinary. *)
Fixpoint keys_ordinary (e : lit) : bool :=
  match e with
  | LArr xs => forallb keys_ordinary xs
  | LObj fs => forallb (λ f, ordinary_key f.1 && keys_ordinary f.2) fs
  | _ => true
  end.

(** The own keys of an object, in their order: [Object.keys]. *)
Definition own_keys (v : value) : list string := (props_of v).*1.

(** ** Colours of the source *)

(** The names the comments of [brand-light] give to its colours. *)
Definition brand_light_color_names : list (string * string) :=
  [("primary", "Teal Blue"); ("secondary", "Smokey Taupe");
   ("accent", "Vivid Orange"); ("neutral", "Black");
   ("base-100", "White"); ("base-200", "Platinum");
   ("base-300", "Smokey Taupe")].

(** The roles that colour what is drawn on another role. *)
Definition content_roles : list string :=
  map content_counterpart brand_roles ++ ["base-content"].

(** [^#[0-9A-F]{6}$]: the colour syntax in capitals only. *)
Definition upper_hex_color : regex :=
  Cat (Chr "#"%char) (times 6 (Class [("0", "9"); ("A", "F")]%char)).

(** * Properties *)

(** ** The matcher decides the language *)

Section regex_facts.
Implicit Types (r : regex) (s : string) (c : ascii).

Lemma append_empty_inv s1 s2 : s1 +:+ s2 = "" → s1 = "" ∧ s2 = "".
Proof. destruct s1; simpl; [done | discriminate]. Qed.

Lemma append_cons_inv s1 s2 c s :
  s1 +:+ s2 = String c s →
  (s1 = "" ∧ s2 = String c s) ∨ (∃ s1', s1 = String c s1' ∧ s = s1' +:+ s2).
Proof.
  destruct s1 as [|c1 s1]; simpl; intros E; [by left | right].
  injection E as -> <-. by exists s1.
Qed.

Lemma nullable_lang r : nullable r = true ↔ lang r "".
Proof.
  split.
  - induction r; simpl; intros E; try discriminate.
    + constructor.
    + apply andb_prop in E as [E1 E2].
      change "" with ("" +:+ ""). constructor; auto.
    + apply orb_prop in E as [E|E]; [apply lang_alt_l | apply lang_alt_r]; auto.
  - intros L. remember "" as s eqn:Es.
    induction L; simpl; try discriminate; auto.
    + apply append_empty_inv in Es as [-> ->]. by rewrite IHL1, IHL2.
    + by rewrite IHL.
    + rewrite IHL by done. apply orb_true_r.
Qed.

Lemma deriv_sound c r s : lang (deriv c r) s → lang r (String c s).
Proof.
  revert s. induction r as [| |c'|rs|r1 IH1 r2 IH2|r1 IH1 r2 IH2]; simpl; intros s L.
  - inv L.
  - inv L.
  - destruct (Ascii.eqb_spec c c') as [->|]; inv L. constructor.
  - destruct (in_class c rs) eqn:E; inv L. by constructor.
  - destruct (nullable r1) eqn:N.
    + inv L.
      * match goal with H : lang (Cat _ _) _ |- _ => inv H end.
        change (lang (Cat r1 r2) (String c s1 +:+ s2)). constructor; auto.
      * change (lang (Cat r1 r2) ("" +:+ String c s)).
        constructor; [by apply nullable_lang | auto].
    + inv L. change (lang (Cat r1 r2) (String c s1 +:+ s2)). constructor; auto.
  - inv L; [apply lang_alt_l | apply lang_alt_r]; auto.
Qed.

Lemma deriv_complete c r s : lang r (String c s) → lang (deriv c r) s.
Proof.
  revert s. induction r as [| |c'|rs|r1 IH1 r2 IH2|r1 IH1 r2 IH2]; simpl; intros s L.
  - inv L.
  - inv L.
  - inv L. rewrite Ascii.eqb_refl. constructor.
  - inv L. match goal with H : in_class _ _ = true |- _ => rewrite H end. constructor.
  - inv L.
    match goal with H : _ +:+ _ = String _ _ |- _ =>
      apply append_cons_inv in H as [[-> ->]|(s1' & -> & ->)] end.
    + match goal with H : lang r1 "" |- _ => apply nullable_lang in H; rewrite H end.
      apply lang_alt_r; auto.
    + destruct (nullable r1); [apply lang_alt_l |]; constructor; auto.
  - inv L; [apply lang_alt_l | apply lang_alt_r]; auto.
Qed.

Lemma matches_lang r s : matches r s = true ↔ lang r s.
Proof.
  revert r. induction s as [|c s IH]; intros r; simpl.
  - apply nullable_lang.
  - rewrite IH. split; [apply deriv_sound | apply deriv_complete].
Qed.

(** [C{n}] for a character class [C]: the strings of [n] characters of [C]. *)
Lemma lang_times_class n rs s :
  lang (times n (Class rs)) s ↔
  String.length s = n ∧ Forall (λ c, in_class c rs = true) (String.list_ascii_of_string s).
Proof.
  revert s. induction n as [|n IH]; intros s; simpl.
  - split.
    + intros L; inv L; by split.
    + intros [E _]. destruct s; [constructor | discriminate].
  - split.
    + intros L; inv L.
      match goal with H : lang (Class _) _ |- _ => inv H end.
      match goal with H : lang (times _ _) _ |- _ => apply IH in H as [<- ?] end.
      simpl. split; [done | by constructor].
    + intros [E F]. destruct s as [|c s]; [discriminate|].
      injection E as E. simpl in F. apply Forall_cons in F as [Fc Fs].
      change (lang (Cat (Class rs) (times n (Class rs))) (String c "" +:+ s)).
      constructor; [by constructor | by apply IH].
Qed.

(** What [^#[0-9A-Fa-f]{6}$] accepts: a [#] and then exactly six
    characters, each a digit or a letter of [A-F] or [a-f]. *)
Lemma hex_color_matches s :
  matches hex_color s = true ↔
  ∃ ds, s = String "#" ds ∧ String.length ds = 6
    ∧ Forall (λ c, in_class c [("0", "9"); ("A", "F"); ("a", "f")]%char = true)
        (String.list_ascii_of_string ds).
Proof.
  rewrite matches_lang. unfold hex_color, hex_digit. split.
  - intros L; inv L.
    match goal with H : lang (Chr _) _ |- _ => inv H end.
    match goal with H : lang _ ?ds |- context [_ +:+ ?ds] =>
      apply (lang_times_class 6) in H; exists ds end.
    done.
  - intros (ds & -> & E). change (String "#" ds) with (String "#" "" +:+ ds).
    constructor; [constructor | by apply lang_times_class].
Qed.

End regex_facts.

(** ** Allocation and the data it stands for *)

Section store_facts.
Context {H : host}.
Implicit Types (σ τ : list (cell H)) (h : hval H) (t : data H) (c : modules H).

Lemma snapshot_extend n σ τ h t :
  snapshot n σ h = Some t → snapshot n (σ ++ τ) h = Some t.
Proof.
  revert h t. induction n as [|n IH]; intros [s|e|l] t; simpl; try done.
  destruct (σ !! l) as [x|] eqn:El; [|done].
  rewrite (lookup_app_l_Some _ _ _ _ El).
  destruct x as [hs|ps]; intros E;
    apply fmap_Some in E as (xs & E & ->); apply fmap_Some; eexists; split; [|done| |done];
    apply mapM_Some; apply mapM_Some in E;
    (eapply Forall2_impl; [exact E|]); simpl.
  - auto.
  - intros p q Ep. apply fmap_Some in Ep as (x & Ex & ->).
    by rewrite (IH _ _ Ex).
Qed.

Lemma reads_extend σ τ h t : reads σ h t → reads (σ ++ τ) h t.
Proof. intros R n. apply snapshot_extend, R. Qed.

Lemma reads_at σ h t d : reads σ h t → depth t ≤ d → snapshot d σ h = Some t.
Proof. intros R Hd. replace d with (depth t + (d - depth t)) by lia. apply R. Qed.

Lemma reads_items σ d hs ts :
  Forall2 (reads σ) hs ts →
  foldr (λ x k, depth x `max` k) 0 ts ≤ d →
  mapM (snapshot d σ) hs = Some ts.
Proof.
  intros F. induction F as [|h t hs ts R F IH]; simpl; intros Hd; [done|].
  rewrite (reads_at _ _ _ _ R) by lia. simpl. rewrite IH by lia. done.
Qed.

Lemma reads_props σ d ps qs :
  fields_rel (reads σ) ps qs →
  foldr (λ q k, depth q.2 `max` k) 0 qs ≤ d →
  mapM (λ p, pair p.1 <$> snapshot d σ p.2) ps = Some qs.
Proof.
  intros F. induction F as [|[k h] [k' t] ps qs [Ek R] F IH]; simpl in *; intros Hd; [done|].
  subst k'. rewrite (reads_at _ _ _ _ R) by lia. simpl. rewrite IH by lia. done.
Qed.

Lemma reads_arr σ l hs ts :
  σ !! l = Some (CArr hs) → Forall2 (reads σ) hs ts → reads σ (HRef l) (DArr ts).
Proof.
  intros El F n. simpl. rewrite El.
  rewrite (reads_items _ _ _ _ F) by lia. done.
Qed.

Lemma reads_obj σ l ps qs :
  σ !! l = Some (CObj ps) → fields_rel (reads σ) ps qs → reads σ (HRef l) (DObj qs).
Proof.
  intros El F n. simpl. rewrite El.
  rewrite (reads_props _ _ _ _ F) by lia. done.
Qed.

Lemma put_rel {A B} (P : A → B → Prop) k x y ps qs :
  P x y → fields_rel P ps qs → fields_rel P (put k x ps) (put k y qs).
Proof.
  intros Pxy F. induction F as [|[k1 x1] [k2 y1] ps qs [Ek Pq] F IH]; simpl in *.
  - by repeat constructor.
  - subst k2. destruct (String.eqb k k1); constructor; auto.
Qed.

Lemma define_rel {A B} (P : A → B → Prop) fs gs :
  fields_rel P fs gs → fields_rel P (define fs) (define gs).
Proof.
  unfold define. assert (fields_rel P [] []) as Acc by constructor.
  revert Acc. generalize (@nil (string * A)) (@nil (string * B)).
  intros ps qs Acc F. revert ps qs Acc.
  induction F as [|[k x] [k' y] fs gs [Ek Pxy] F IH]; simpl in *; intros ps qs Acc; [done|].
  subst k'. apply IH. by apply put_rel.
Qed.

Lemma eval_items_builds ms ts c c' σ :
  builds_items ms ts c c' →
  ∃ hs τ, eval_items ms (World c σ) = Some (hs, World c' (σ ++ τ))
    ∧ Forall2 (reads (σ ++ τ)) hs ts.
Proof.
  intros F. revert σ. induction F as [c|m t ms ts c c1 c2 B F IH]; intros σ; simpl.
  - exists [], []. by rewrite app_nil_r.
  - destruct (B σ) as (h & τ1 & Em & R).
    destruct (IH (σ ++ τ1)) as (hs & τ2 & Ems & Rs).
    exists (h :: hs), (τ1 ++ τ2).
    unfold mbind, Eval_bind, mret, Eval_ret. simpl.
    rewrite Em. simpl. rewrite Ems. rewrite app_assoc. split; [done|].
    constructor; [|done]. by apply reads_extend.
Qed.

Lemma eval_fields_builds fs gs c c' σ :
  builds_fields fs gs c c' →
  ∃ ps τ, eval_fields fs (World c σ) = Some (ps, World c' (σ ++ τ))
    ∧ fields_rel (reads (σ ++ τ)) ps gs.
Proof.
  intros F. revert σ.
  induction F as [c|k m t fs gs c c1 c2 B F IH]; intros σ; simpl in *.
  - exists [], []. rewrite app_nil_r. split; [done | constructor].
  - destruct (B σ) as (h & τ1 & Em & R).
    destruct (IH (σ ++ τ1)) as (ps & τ2 & Efs & Rs).
    exists ((k, h) :: ps), (τ1 ++ τ2).
    unfold mbind, Eval_bind, mret, Eval_ret. simpl.
    rewrite Em. simpl. rewrite Efs. rewrite app_assoc. split; [done|].
    constructor; [|done]. split; [done|]. by apply reads_extend.
Qed.

Lemma alloc_fresh σ (x : cell H) l :
  l = length σ → (σ ++ [x]) !! l = Some x.
Proof. intros ->. by rewrite list_lookup_middle. Qed.

(** The four literal forms build the data they stand for; [require]
    alone touches the module system. *)

Lemma builds_str s c : builds (str s) (DStr s) c c.
Proof.
  intros σ. exists (HStr s), []. rewrite app_nil_r.
  split; [reflexivity | intros [|n]; reflexivity].
Qed.

Lemma builds_require s e c c' :
  host_require H s c = Some (e, c') → builds (require s) (DExport e) c c'.
Proof.
  intros E σ. exists (HExport e), []. rewrite app_nil_r. split.
  - simpl. unfold call_require. simpl. by rewrite E.
  - intros [|n]; reflexivity.
Qed.

Lemma builds_arr ms ts c c' :
  builds_items ms ts c c' → builds (arr ms) (DArr ts) c c'.
Proof.
  intros F σ. destruct (eval_items_builds _ _ _ _ σ F) as (hs & τ & E & R).
  exists (HRef (length (σ ++ τ))), (τ ++ [CArr hs]).
  simpl. unfold mbind, Eval_bind, alloc. rewrite E. simpl. rewrite app_assoc.
  split; [done|].
  eapply reads_arr; [by apply alloc_fresh|].
  eapply Forall2_impl; [exact R|]. intros h t. apply reads_extend.
Qed.

Lemma builds_obj fs gs c c' :
  builds_fields fs gs c c' → builds (obj fs) (DObj (define gs)) c c'.
Proof.
  intros F σ. destruct (eval_fields_builds _ _ _ _ σ F) as (ps & τ & E & R).
  exists (HRef (length (σ ++ τ))), (τ ++ [CObj (define ps)]).
  simpl. unfold mbind, Eval_bind, alloc. rewrite E. simpl. rewrite app_assoc.
  split; [done|].
  eapply reads_obj; [by apply alloc_fresh|]. apply define_rel.
  eapply Forall2_impl; [exact R|]. intros p q [? ?]. split; [done|].
  by apply reads_extend.
Qed.

(** The module body builds the exported data around the export the
    host gives for the plugin. *)
Lemma load_builds e c c' :
  host_require H "daisyui" c = Some (e, c') →
  builds (load H) (config_with e) c c'.
Proof.
  intros E. unfold load, config_with, tailwind_config.
  repeat first
    [ apply builds_str
    | eapply builds_require; exact E
    | apply builds_arr | apply builds_obj
    | apply builds_items_nil | eapply builds_items_cons
    | apply builds_fields_nil | eapply builds_fields_cons ].
Qed.

(** The data built is the exported configuration, the export of the
    plugin standing where [config] has the module [daisyui]. *)
Lemma config_with_plain (e : export H) :
  to_value (λ _, "daisyui") (config_with e) = config.
Proof. reflexivity. Qed.

End store_facts.

(** ** The configuration *)

(** C4: [contentGlobs] is exactly the two patterns
    [./app/templates/**/*.html] and [./app/static/**/*.js], in this
    order, and nothing else. *)
Theorem content_globs_exact :
  contentGlobs config =
    [VStr "./app/templates/**/*.html"; VStr "./app/static/**/*.js"].
Proof. reflexivity. Qed.

(** C8: [pluginList] holds exactly one plugin, the export of the
    module [daisyui], and [themeExtensions] is the empty object. *)
Theorem one_plugin_no_extension :
  pluginList config = [VModule "daisyui"]
  ∧ length (pluginList config) = 1
  ∧ themeExtensions config = Some (VObj []).
Proof. repeat split. Qed.

(** C3: [themeDefinitions] holds exactly two palettes, their names are
    pairwise distinct, and the names are [brand-light] and
    [brand-teal-surface]. *)
Theorem two_palettes_unique_names :
  length (themeDefinitions config) = 2
  ∧ NoDup (name <$> themeDefinitions config)
  ∧ name <$> themeDefinitions config = ["brand-light"; "brand-teal-surface"].
Proof.
  split; [reflexivity|]. split; [|reflexivity].
  change (NoDup ["brand-light"; "brand-teal-surface"]).
  apply NoDup_cons. split; [|apply NoDup_singleton].
  intros E%list_elem_of_singleton. discriminate E.
Qed.

(** C5: in the palette [brand-light], [primary] is [#0E2A30] and
    [base-100] is [#F9F9F9]. *)
Theorem brand_light_primary_and_base :
  role_of config "brand-light" "primary" = Some (VStr "#0E2A30")
  ∧ role_of config "brand-light" "base-100" = Some (VStr "#F9F9F9").
Proof. split; vm_compute; reflexivity. Qed.

(** C6: in the palette [brand-teal-surface], [base-100] is [#0E2A30],
    which is the [primary] colour of both palettes. *)
Theorem teal_surface_base_is_primary :
  role_of config "brand-teal-surface" "base-100" = Some (VStr "#0E2A30")
  ∧ role_of config "brand-light" "primary"
      = role_of config "brand-teal-surface" "base-100"
  ∧ role_of config "brand-teal-surface" "primary"
      = role_of config "brand-teal-surface" "base-100".
Proof. repeat split; vm_compute; reflexivity. Qed.

(** ** The palettes *)

(** C1: every palette defines the complete required role set:
    [primary], [secondary], [accent], [neutral], [base-100],
    [base-200], [base-300], the [-content] counterpart of each, and
    [info], [success], [warning], [error]; no role is missing. *)
Theorem palettes_define_required_roles p :
  p ∈ themeDefinitions config → defines_all required_roles p.
Proof.
  revert p. apply Forall_forall.
  eapply Forall_impl with
    (P := λ p, Forall (λ r, is_Some (colorRoles p !! r)) required_roles).
  - compute_done.
  - intros p F. rewrite Forall_forall in F. exact F.
Qed.

Lemma palettes_define_required_roles_witness :
  ∃ p, p ∈ themeDefinitions config ∧ name p = "brand-light"
    ∧ defines_all required_roles p.
Proof.
  eexists. split; [apply list_elem_of_here|]. split; [reflexivity|].
  apply palettes_define_required_roles. apply list_elem_of_here.
Defined.

(** The required roles are, as a set, the sixteen roles the palettes
    are written with. *)
Remark required_roles_sixteen :
  (list_to_set required_roles : gset string) = list_to_set palette_roles
  ∧ size (list_to_set required_roles : gset string) = 16.
Proof. split; compute_done. Qed.

(** C2: every colour value of every palette is a string that matches
    [^#[0-9A-Fa-f]{6}$]. *)
Theorem color_values_are_hex p role v :
  p ∈ themeDefinitions config →
  colorRoles p !! role = Some v →
  ∃ c, v = VStr c ∧ matches hex_color c = true.
Proof.
  intros Hp Hv.
  assert (Forall (λ p, map_Forall (λ _ v, is_hex_color v = true) (colorRoles p))
            (themeDefinitions config)) as F by compute_done.
  rewrite Forall_forall in F. specialize (F p Hp role v Hv). simpl in F.
  destruct v as [c| | |]; try discriminate. by exists c.
Qed.

Lemma color_values_are_hex_witness :
  ∃ p, p ∈ themeDefinitions config
    ∧ colorRoles p !! "accent" = Some (VStr "#FF542E")
    ∧ ∃ c, VStr "#FF542E" = VStr c ∧ matches hex_color c = true.
Proof.
  eexists. split; [apply list_elem_of_here|]. split; [compute_done|].
  eapply (color_values_are_hex _ "accent"); [apply list_elem_of_here | compute_done].
Defined.

(** C9: [primary], [secondary], [accent], [neutral] and their
    [-content] counterparts have a value in both palettes, and the same
    one. *)
Theorem brand_roles_shared r :
  r ∈ shared_roles →
  is_Some (role_of config "brand-light" r)
  ∧ role_of config "brand-light" r = role_of config "brand-teal-surface" r.
Proof.
  unfold shared_roles. simpl. intros Hr.
  repeat (apply elem_of_cons in Hr as [->|Hr]);
    [split; [by eexists | vm_compute; reflexivity] .. | by apply elem_of_nil in Hr].
Qed.

Lemma brand_roles_shared_witness :
  "accent" ∈ shared_roles
  ∧ is_Some (role_of config "brand-light" "accent")
  ∧ role_of config "brand-light" "accent"
      = role_of config "brand-teal-surface" "accent".
Proof.
  split; [compute_done|]. apply (brand_roles_shared "accent"). compute_done.
Defined.

(** C10: the two palettes have the same set of role keys, the sixteen
    of [palette_roles]; each has [base-content] and none of
    [base-100-content], [base-200-content], [base-300-content]. *)
Theorem palettes_same_sixteen_keys :
  ∃ p1 p2, themeDefinitions config = [p1; p2]
    ∧ dom (colorRoles p1) = dom (colorRoles p2)
    ∧ Forall (λ p,
        dom (colorRoles p) = list_to_set palette_roles
        ∧ size (dom (colorRoles p)) = 16
        ∧ "base-content" ∈ dom (colorRoles p)
        ∧ ("base-100-content" ∉ dom (colorRoles p))
        ∧ ("base-200-content" ∉ dom (colorRoles p))
        ∧ ("base-300-content" ∉ dom (colorRoles p))) [p1; p2].
Proof.
  eexists _, _. split; [reflexivity|]. split; compute_done.
Qed.

(** ** Loading the file twice *)

(** C7, as stated: loading is free of side effects and idempotent from
    any state of any host.  This fails where the plugin has not been
    loaded yet: on a host in the manner of Node, started with an empty
    module cache, the first evaluation enters [daisyui] in the cache. *)
Lemma cold_load_has_effect :
  ¬ loads_purely node_start.
Proof.
  intros (r1 & w1 & r2 & w2 & E1 & _ & _ & C1 & _).
  vm_compute in E1. injection E1 as _ <-. discriminate C1.
Qed.

(** C7, amended: when [require("daisyui")] returns and, once it has
    been called, answers from the module cache (the same export, the
    module system unchanged), two evaluations of the module body give
    values that hold structurally identical data, equal in every field
    to the exported configuration; the second evaluation leaves the
    module system as the first one left it; and no cell that was there
    is changed, each evaluation only appending its own. *)
Theorem load_twice_same_data (H : host) (w : world H) e m :
  host_require H "daisyui" (cache w) = Some (e, m) →
  host_require H "daisyui" m = Some (e, m) →
  ∃ r1 w1 r2 w2,
    load H w = Some (r1, w1) ∧ load H w1 = Some (r2, w2)
    ∧ same_data (cells w2) r1 r2
    ∧ reads (cells w2) r1 (config_with e)
    ∧ reads (cells w2) r2 (config_with e)
    ∧ cache w1 = m ∧ cache w2 = m
    ∧ cells w `prefix_of` cells w1 ∧ cells w1 `prefix_of` cells w2.
Proof.
  intros E1 E2. destruct w as [c σ]. simpl in *.
  destruct (load_builds e c m E1 σ) as (r1 & τ1 & L1 & R1).
  destruct (load_builds e m m E2 (σ ++ τ1)) as (r2 & τ2 & L2 & R2).
  exists r1, (World m (σ ++ τ1)), r2, (World m ((σ ++ τ1) ++ τ2)). simpl.
  assert (reads ((σ ++ τ1) ++ τ2) r1 (config_with e)) as R1'
    by by apply reads_extend.
  repeat split; try done; [by exists (config_with e) | by eexists ..].
Qed.

Lemma load_twice_same_data_witness :
  host_require node "daisyui" [] = Some ("daisyui", ["daisyui"])
  ∧ host_require node "daisyui" ["daisyui"] = Some ("daisyui", ["daisyui"])
  ∧ ∃ r1 w1 r2 w2,
      load node node_start = Some (r1, w1) ∧ load node w1 = Some (r2, w2)
      ∧ same_data (cells w2) r1 r2
      ∧ reads (cells w2) r1 (config_with (H := node) "daisyui")
      ∧ reads (cells w2) r2 (config_with (H := node) "daisyui")
      ∧ cache w1 = ["daisyui"] ∧ cache w2 = ["daisyui"]
      ∧ [] `prefix_of` cells w1 ∧ cells w1 `prefix_of` cells w2.
Proof.
  split; [reflexivity|]. split; [reflexivity|].
  exact (load_twice_same_data node node_start "daisyui" ["daisyui"]
           eq_refl eq_refl).
Defined.

(** Where the host gives the module no [require], there is nothing to
    compare: the evaluation throws. *)
Remark load_without_require (w : world bare) : load bare w = None.
Proof. reflexivity. Qed.

(** ** Sample runs *)

Example load_on_node :
  (λ rw, snapshot 5 (cells rw.2) rw.1) <$> load node node_start
  = Some (Some (config_with (H := node) "daisyui")).
Proof. compute_done. Qed.

Example ordinary_key_samples :
  ordinary_key "base-100" = true
  ∧ ordinary_key "" = true
  ∧ ordinary_key "__proto__" = false
  ∧ ordinary_key "100" = false.
Proof. repeat split. Qed.

Example hex_color_samples :
  matches hex_color "#0E2a30" = true
  ∧ matches hex_color "#0E2A3" = false
  ∧ matches hex_color "#0E2A300" = false
  ∧ matches hex_color "0E2A300" = false
  ∧ matches hex_color "#0E2G30" = false.
Proof. repeat split. Qed.

Example define_last_wins :
  define [("a", 1); ("b", 2); ("a", 3)] = [("a", 3); ("b", 2)].
Proof. reflexivity. Qed.

(** * Further properties *)

(** ** Object literals *)

Section object_facts.
Context {A : Type}.
Implicit Types (k : string) (x : A) (ps fs : list (string * A)).








End object_facts.







(** ** Literals in general *)

Section literal_facts.





End literal_facts.

(** ** The file *)

(** X6: no object of [tailwind.config.js] writes a key twice, so no
    option and no role is silently overridden by a later one: the
    exported data is the tree as written. *)
Theorem source_keys_unique :
  keys_unique source_text = true
  ∧ denote source_text = config
  ∧ config = plain source_text.
Proof. repeat split. Qed.

(** X7: the own keys of the export are [content], [theme], [plugins]
    and [daisyui], in this order, and the one own key of [theme] is
    [extend]: the file sets no other option and replaces no value of
    the default theme. *)
Theorem config_own_keys :
  own_keys config = ["content"; "theme"; "plugins"; "daisyui"]
  ∧ own_keys <$> field "theme" config = Some ["extend"].
Proof. split; reflexivity. Qed.

(** X13: every key written in the file is ordinary: none is
    [__proto__] and none is a numeral, so each field of each object is
    an own property, listed in the place where it is written. *)
Theorem source_keys_ordinary : keys_ordinary source_text = true.
Proof. reflexivity. Qed.

Ltac each_of_list :=
  match goal with
  | |- ∀ x, x ∈ ?l → @?P x => apply (proj1 (Forall_forall P l))
  end;
  repeat first [apply List.Forall_cons | apply List.Forall_nil].

(** X8: the two palettes have the same value for a role exactly when
    it is one of the eight brand roles; the three surface shades,
    [base-content] and the four status colours all differ. *)
Theorem palettes_agree_exactly_on_brand r :
  r ∈ palette_roles →
  role_of config "brand-light" r = role_of config "brand-teal-surface" r
  ↔ r ∈ shared_roles.
Proof.
  revert r. each_of_list.
  all: split; [intros E | intros M].
  all: first
    [ compute_done
    | vm_compute in E; discriminate E
    | exfalso; revert M; apply (bool_decide_unpack _); vm_compute; exact I ].
Qed.

Lemma palettes_agree_exactly_on_brand_witness :
  "base-100" ∈ palette_roles
  ∧ (role_of config "brand-light" "base-100"
       = role_of config "brand-teal-surface" "base-100"
     ↔ "base-100" ∈ shared_roles).
Proof.
  split; [compute_done|]. apply (palettes_agree_exactly_on_brand "base-100").
  compute_done.
Defined.

(** X9: in every palette a brand colour differs from its [-content]
    counterpart, and [base-content] differs from each of the three
    surface shades: nothing is drawn in its own background colour. *)
Theorem content_differs_from_base p :
  p ∈ themeDefinitions config →
  (∀ r, r ∈ brand_roles →
     colorRoles p !! r ≠ colorRoles p !! content_counterpart r)
  ∧ (∀ r, r ∈ surface_roles →
     colorRoles p !! r ≠ colorRoles p !! "base-content").
Proof.
  revert p. each_of_list.
  all: split; each_of_list.
  all: intros E; vm_compute in E; discriminate E.
Qed.

Lemma content_differs_from_base_witness :
  ∃ p, p ∈ themeDefinitions config ∧ name p = "brand-teal-surface"
    ∧ (∀ r, r ∈ brand_roles →
         colorRoles p !! r ≠ colorRoles p !! content_counterpart r)
    ∧ (∀ r, r ∈ surface_roles →
         colorRoles p !! r ≠ colorRoles p !! "base-content").
Proof.
  eexists. split; [apply list_elem_of_further, list_elem_of_here|].
  split; [reflexivity|].
  apply content_differs_from_base. apply list_elem_of_further, list_elem_of_here.
Defined.

(** X10: every [-content] colour of either palette is the White
    [#F9F9F9] or the Black [#020F13] of the brand. *)
Theorem content_black_or_white p r :
  p ∈ themeDefinitions config → r ∈ content_roles →
  colorRoles p !! r = Some (VStr "#F9F9F9")
  ∨ colorRoles p !! r = Some (VStr "#020F13").
Proof.
  intros Hp Hr. revert r Hr. revert p Hp. each_of_list. all: each_of_list.
  all: first [left; compute_done | right; compute_done].
Qed.

Lemma content_black_or_white_witness :
  ∃ p, p ∈ themeDefinitions config ∧ "base-content" ∈ content_roles
    ∧ (colorRoles p !! "base-content" = Some (VStr "#F9F9F9")
       ∨ colorRoles p !! "base-content" = Some (VStr "#020F13")).
Proof.
  eexists. split; [apply list_elem_of_here|]. split; [compute_done|].
  apply content_black_or_white; [apply list_elem_of_here | compute_done].
Defined.

(** X11: the colour names in the comments of [brand-light] agree with
    the values: two roles carry the same name exactly when they carry
    the same value. *)
Theorem color_names_consistent r1 n1 r2 n2 :
  (r1, n1) ∈ brand_light_color_names →
  (r2, n2) ∈ brand_light_color_names →
  n1 = n2 ↔ role_of config "brand-light" r1 = role_of config "brand-light" r2.
Proof.
  intros H1 H2. revert r2 n2 H2. revert r1 n1 H1.
  assert (Forall (λ a, Forall (λ b,
    a.2 = b.2 ↔ role_of config "brand-light" a.1 = role_of config "brand-light" b.1)
    brand_light_color_names) brand_light_color_names) as F.
  { repeat first [apply List.Forall_cons | apply List.Forall_nil].
    all: simpl; split; intros E.
    all: first [ compute_done | discriminate E | vm_compute in E; discriminate E ]. }
  intros r1 n1 H1 r2 n2 H2. rewrite Forall_forall in F.
  specialize (F _ H1). rewrite Forall_forall in F. exact (F _ H2).
Qed.

Lemma color_names_consistent_witness :
  ("secondary", "Smokey Taupe") ∈ brand_light_color_names
  ∧ ("base-300", "Smokey Taupe") ∈ brand_light_color_names
  ∧ ("Smokey Taupe" = "Smokey Taupe"
     ↔ role_of config "brand-light" "secondary"
       = role_of config "brand-light" "base-300").
Proof.
  assert (("secondary", "Smokey Taupe") ∈ brand_light_color_names) as H1
    by compute_done.
  assert (("base-300", "Smokey Taupe") ∈ brand_light_color_names) as H2
    by compute_done.
  split; [exact H1|]. split; [exact H2|].
  exact (color_names_consistent _ _ _ _ H1 H2).
Defined.

(** X12: every colour value is written in capitals: it matches
    [^#[0-9A-F]{6}$], so two values are the same colour only when they
    are the same string. *)
Theorem color_values_uppercase p role v :
  p ∈ themeDefinitions config →
  colorRoles p !! role = Some v →
  ∃ c, v = VStr c ∧ matches upper_hex_color c = true.
Proof.
  intros Hp Hv.
  assert (Forall (λ p, map_Forall (λ _ v,
            match v with VStr c => matches upper_hex_color c | _ => false end = true)
            (colorRoles p)) (themeDefinitions config)) as F by compute_done.
  rewrite Forall_forall in F. specialize (F p Hp role v Hv). simpl in F.
  destruct v as [c| | |]; try discriminate. by exists c.
Qed.

Lemma color_values_uppercase_witness :
  ∃ p, p ∈ themeDefinitions config
    ∧ colorRoles p !! "error" = Some (VStr "#DC2626")
    ∧ ∃ c, VStr "#DC2626" = VStr c ∧ matches upper_hex_color c = true.
Proof.
  eexists. split; [apply list_elem_of_here|]. split; [compute_done|].
  eapply (color_values_uppercase _ "error"); [apply list_elem_of_here | compute_done].
Defined.
